(** * ApiTokenService: a shallow embedding of
    [src/lib/services/api-token-service.ts] and its properties.

    The service keeps an in-memory list of active tokens in front of a token
    store.  Asynchronous methods are embedded as state-passing computations
    that either return a value or throw; one method body runs to completion
    before the next one starts. *)

From Stdlib Require Import String Ascii List ZArith Lia Bool.
From Stdlib.Strings Require Import Byte.
Import ListNotations.
Local Open Scope string_scope.

(** ** JavaScript values and strings *)

Module Js.

(** The values a loosely typed field can hold here: a string, or [undefined]
    (a missing property, an array index out of range). *)
Inductive value : Type :=
| undefined : value
| str : string -> value.

(** Strict equality [a === b]. *)
Definition strict_eq (a b : value) : bool :=
  match a, b with
  | undefined, undefined => true
  | str x, str y => String.eqb x y
  | _, _ => false
  end.

(** What a template literal [`${v}`] renders. *)
Definition render (v : value) : string :=
  match v with
  | undefined => "undefined"
  | str s => s
  end.

(** [s.split(sep)] for a one-character separator. *)
Fixpoint split (sep : ascii) (s : string) : list string :=
  match s with
  | EmptyString => [EmptyString]
  | String c rest =>
      if Ascii.eqb c sep then EmptyString :: split sep rest
      else match split sep rest with
           | [] => [String c EmptyString]
           | hd :: tl => String c hd :: tl
           end
  end.

(** [parts[i]]: [undefined] past the end of the array. *)
Definition at_index (parts : list string) (i : nat) : value :=
  match nth_error parts i with
  | Some s => str s
  | None => undefined
  end.

(** [s.includes(needle)]. *)
Fixpoint includes (s needle : string) : bool :=
  String.prefix needle s ||
  match s with
  | EmptyString => false
  | String _ rest => includes rest needle
  end.

(** [c] does not occur in [s]. *)
Fixpoint free_of (c : ascii) (s : string) : bool :=
  match s with
  | EmptyString => true
  | String d rest => negb (Ascii.eqb d c) && free_of c rest
  end.

(** One lower-case hexadecimal digit, for [n < 16]. *)
Definition hex_digit (n : N) : ascii :=
  match n with
  | 0%N => "0" | 1%N => "1" | 2%N => "2" | 3%N => "3"
  | 4%N => "4" | 5%N => "5" | 6%N => "6" | 7%N => "7"
  | 8%N => "8" | 9%N => "9" | 10%N => "a" | 11%N => "b"
  | 12%N => "c" | 13%N => "d" | 14%N => "e" | _ => "f"
  end%char.


(** [buffer.toString('hex')]: two digits per byte, high nibble first. *)
Fixpoint to_hex (bytes : list byte) : string :=
  match bytes with
  | [] => EmptyString
  | b :: rest =>
      let n := Byte.to_N b in
      String (hex_digit (N.div n 16))
        (String (hex_digit (N.modulo n 16)) (to_hex rest))
  end.


End Js.

(** ** Errors *)

(** The fields of a store error that the service reads in its [catch]. *)
Record StoreError : Type := mkStoreError {
  code : Js.value;
  constraint : Js.value;
  message : string
}.

(** What a method of the service can throw: a [BadDataError] of its own, or
    an error of the store passed on as it came. *)
Inductive Thrown : Type :=
| BadDataError : string -> Thrown
| FromStore : StoreError -> Thrown.

Inductive Outcome (E A : Type) : Type :=
| Returns : A -> Outcome E A
| Throws : E -> Outcome E A.
Arguments Returns {E A} _.
Arguments Throws {E A} _.

(** A store error leaves an [await] as the store threw it. *)
Definition passed_on {A : Type} (r : Outcome StoreError A) : Outcome Thrown A :=
  match r with
  | Returns a => Returns a
  | Throws e => Throws (FromStore e)
  end.

(** ** Constants imported from modules outside this source tree *)

Class Imported : Type := {
  (** [ALL] of [types/models/api-token]. *)
  ALL : string;
  (** [ApiTokenType.ADMIN] and [ApiTokenType.CLIENT]. *)
  ApiTokenType_ADMIN : string;
  ApiTokenType_CLIENT : string;
  (** [ADMIN] and [CLIENT] of [types/permissions]. *)
  ADMIN : string;
  CLIENT : string;
  (** [FOREIGN_KEY_VIOLATION] of [error/db-error]. *)
  FOREIGN_KEY_VIOLATION : string
}.

(** ** Token records *)

(** [IApiToken]; [IApiTokenCreate] is the same record without [createdAt].
    [type], [project] and [environment] are read from loosely typed objects,
    so they are JavaScript values. *)
Record IApiToken : Type := mkToken {
  secret : string;
  username : string;
  type : Js.value;
  environment : Js.value;
  project : Js.value;
  expiresAt : option Z;
  createdAt : option Z
}.

(** [Omit<IApiTokenCreate, 'secret'>], the argument of [createApiToken]. *)
Record NewToken : Type := mkNewToken {
  new_username : string;
  new_type : Js.value;
  new_environment : Js.value;
  new_project : Js.value;
  new_expiresAt : option Z
}.

(** The object [{ ...newToken, secret }]. *)
Definition with_secret (newToken : NewToken) (secret_ : string) : IApiToken :=
  {| secret := secret_;
     username := new_username newToken;
     type := new_type newToken;
     environment := new_environment newToken;
     project := new_project newToken;
     expiresAt := new_expiresAt newToken;
     createdAt := None |}.

(** The object [new ApiUser({...})] is built from. *)
Record ApiUser : Type := mkApiUser {
  user_username : string;
  user_permissions : list string;
  user_project : Js.value;
  user_environment : Js.value;
  user_type : Js.value
}.

(** ** The scope validator *)

Section Validator.
Context {imp : Imported}.

Definition single_project_msg : string :=
  "Admin token cannot be scoped to single project".
Definition single_environment_msg : string :=
  "Admin token cannot be scoped to single environment".
Definition all_environments_msg : string :=
  "Client token cannot be scoped to all environments".

(** [validateNewApiToken({ type, project, environment })]. *)
Definition validateNewApiToken (type project environment : Js.value)
  : Outcome Thrown unit :=
  if Js.strict_eq type (Js.str ApiTokenType_ADMIN)
     && negb (Js.strict_eq project (Js.str ALL))
  then Throws (BadDataError single_project_msg)
  else if Js.strict_eq type (Js.str ApiTokenType_ADMIN)
          && negb (Js.strict_eq environment (Js.str ALL))
  then Throws (BadDataError single_environment_msg)
  else if Js.strict_eq type (Js.str ApiTokenType_CLIENT)
          && Js.strict_eq environment (Js.str ALL)
  then Throws (BadDataError all_environments_msg)
  else Returns tt.

End Validator.

(** ** The token store, an external collaborator *)

Module Store.

(** [IApiTokenStore]: each operation runs on the store's state and either
    returns or throws a store error.  Timestamps are milliseconds. *)
Class IApiTokenStore (St : Type) : Type := {
  getAll : St -> Outcome StoreError (list IApiToken) * St;
  getAllActive : St -> Outcome StoreError (list IApiToken) * St;
  count : St -> Outcome StoreError Z * St;
  insert : IApiToken -> St -> Outcome StoreError IApiToken * St;
  setExpiry : string -> Z -> St -> Outcome StoreError IApiToken * St;
  delete : string -> St -> Outcome StoreError unit * St
}.

(** The calls the service makes on its store, in the order made (a ghost
    record: the source keeps none). *)
Inductive Call : Type :=
| GetAll
| GetAllActive
| Count
| Insert (newToken : IApiToken)
| SetExpiry (secret : string) (expiresAt : Z)
| Delete (secret : string).

Definition is_insert (c : Call) : bool :=
  match c with
  | Insert _ => true
  | _ => false
  end.

End Store.

(** ** The service's state *)

Section Service.
Context {imp : Imported} {St : Type} {api : Store.IApiTokenStore St}.

(** [this.store] and [this.activeTokens]; what [this.logger.error] was given;
    the bytes [crypto.randomBytes] hands out, as an endless pool and how many
    were taken; the ghost record of store calls.  The timer is left out. *)
Record ApiTokenService : Type := mkService {
  store : St;
  activeTokens : list IApiToken;
  logged : list string;
  random_pool : nat -> byte;
  random_taken : nat;
  calls : list Store.Call
}.

Definition with_store (st : St) (s : ApiTokenService) : ApiTokenService :=
  mkService st (activeTokens s) (logged s) (random_pool s) (random_taken s)
    (calls s).

Definition with_activeTokens (ts : list IApiToken) (s : ApiTokenService)
  : ApiTokenService :=
  mkService (store s) ts (logged s) (random_pool s) (random_taken s) (calls s).

Definition with_logged (l : list string) (s : ApiTokenService)
  : ApiTokenService :=
  mkService (store s) (activeTokens s) l (random_pool s) (random_taken s)
    (calls s).

Definition with_random_taken (n : nat) (s : ApiTokenService)
  : ApiTokenService :=
  mkService (store s) (activeTokens s) (logged s) (random_pool s) n (calls s).

Definition with_calls (cs : list Store.Call) (s : ApiTokenService)
  : ApiTokenService :=
  mkService (store s) (activeTokens s) (logged s) (random_pool s)
    (random_taken s) cs.

(** ** Method bodies: state passing with exceptions *)

Definition M (A : Type) : Type :=
  ApiTokenService -> Outcome Thrown A * ApiTokenService.

Definition ret {A : Type} (a : A) : M A := fun s => (Returns a, s).

Definition throw {A : Type} (e : Thrown) : M A := fun s => (Throws e, s).

Definition bind {A B : Type} (m : M A) (k : A -> M B) : M B :=
  fun s =>
    match m s with
    | (Returns a, s') => k a s'
    | (Throws e, s') => (Throws e, s')
    end.

(** A synchronous call that returns or throws, without touching the state. *)
Definition lift {A : Type} (o : Outcome Thrown A) : M A := fun s => (o, s).

(** [try { m } catch (error) { handler(error) }]. *)
Definition try_catch {A : Type} (m : M A) (handler : Thrown -> M A) : M A :=
  fun s =>
    match m s with
    | (Returns a, s') => (Returns a, s')
    | (Throws e, s') => handler e s'
    end.

(** [try { m } finally { return v; }]: the [return] of the [finally] block
    replaces whatever [m] returned or threw. *)
Definition try_finally_return {A B : Type} (m : M A) (v : B) : M B :=
  fun s => (Returns v, snd (m s)).

Notation "x <- m ;; k" := (bind m (fun x => k))
  (at level 61, m at next level, right associativity).
Notation "m ;;; k" := (bind m (fun _ => k))
  (at level 61, right associativity).

(** The service once call [c] has left the store in state [st']. *)
Definition after_call (c : Store.Call) (st' : St) (s : ApiTokenService)
  : ApiTokenService :=
  with_calls (calls s ++ [c]) (with_store st' s).

(** [await this.store.op(...)]: runs [op] on the store, notes the call, and
    rethrows a store error as it came. *)
Definition await_store {A : Type} (c : Store.Call)
  (op : St -> Outcome StoreError A * St) : M A :=
  fun s =>
    let (r, st') := op (store s) in
    (passed_on r, after_call c st' s).

(** [this.logger.error(msg)]. *)
Definition logger_error (msg : string) : M unit :=
  fun s => (Returns tt, with_logged (logged s ++ [msg]) s).

(** The next [n] bytes of the pool. *)
Definition next_bytes (n : nat) (s : ApiTokenService) : list byte :=
  map (fun i => random_pool s (random_taken s + i)) (seq 0 n).

(** [crypto.randomBytes(n)]. *)
Definition randomBytes (n : nat) : M (list byte) :=
  fun s => (Returns (next_bytes n s), with_random_taken (random_taken s + n) s).

(** [this.activeTokens.push(token)]. *)
Definition push_activeToken (token : IApiToken) : M unit :=
  fun s => (Returns tt, with_activeTokens (activeTokens s ++ [token]) s).

(** ** The methods of [ApiTokenService] *)

Definition getAllTokens : M (list IApiToken) :=
  await_store Store.GetAll Store.getAll.

Definition getAllActiveTokens : M (list IApiToken) :=
  await_store Store.GetAllActive Store.getAllActive.

(** [this.activeTokens = tokens]. *)
Definition assign_activeTokens (tokens : list IApiToken) : M unit :=
  fun s => (Returns tt, with_activeTokens tokens s).

Definition fetchActiveTokens : M unit :=
  try_finally_return
    (tokens <- getAllActiveTokens ;;
     assign_activeTokens tokens)
    tt.

Definition getUserForToken (secret_ : string) (s : ApiTokenService)
  : option ApiUser :=
  match find (fun t => String.eqb (secret t) secret_) (activeTokens s) with
  | Some token =>
      let permissions :=
        if Js.strict_eq (type token) (Js.str ApiTokenType_ADMIN)
        then [ADMIN] else [CLIENT] in
      Some {| user_username := username token;
              user_permissions := permissions;
              user_project := project token;
              user_environment := environment token;
              user_type := type token |}
  | None => None
  end.

Definition updateExpiry (secret_ : string) (expiresAt_ : Z) : M IApiToken :=
  await_store (Store.SetExpiry secret_ expiresAt_)
    (Store.setExpiry secret_ expiresAt_).

Definition delete (secret_ : string) : M unit :=
  await_store (Store.Delete secret_) (Store.delete secret_).

Definition project_missing_msg (newApiToken : IApiToken) : string :=
  "Project=" ++ Js.render (project newApiToken) ++ " does not exist".

Definition environment_missing_msg (newApiToken : IApiToken) : string :=
  "Environment=" ++ Js.render (environment newApiToken) ++ " does not exist".

(** The [catch] block of [insertNewApiToken].  Only the store call can throw
    inside the [try], so a [BadDataError] never reaches it; such a value is
    rethrown. *)
Definition insert_failed {A : Type} (newApiToken : IApiToken)
  (error : Thrown) : M A :=
  match error with
  | FromStore e =>
      if Js.strict_eq (code e) (Js.str FOREIGN_KEY_VIOLATION) then
        let message_ :=
          if Js.strict_eq (constraint e) (Js.str "api_tokens_project_fkey")
          then project_missing_msg newApiToken
          else if Js.strict_eq (constraint e)
                    (Js.str "api_tokens_environment_fkey")
          then environment_missing_msg newApiToken
          else message e in
        throw (BadDataError message_)
      else throw error
  | BadDataError _ => throw error
  end.

Definition insertNewApiToken (newApiToken : IApiToken) : M IApiToken :=
  try_catch
    (token <- await_store (Store.Insert newApiToken)
                (Store.insert newApiToken) ;;
     push_activeToken token ;;;
     ret token)
    (insert_failed newApiToken).

Definition generateSecretKey (project_ environment_ : Js.value) : M string :=
  bytes <- randomBytes 28 ;;
  let randomStr := Js.to_hex bytes in
  ret (Js.render project_ ++ ":" ++ Js.render environment_ ++ "."
       ++ randomStr).

Definition createApiToken (newToken : NewToken) : M IApiToken :=
  lift (validateNewApiToken (new_type newToken) (new_project newToken)
          (new_environment newToken)) ;;;
  secret_ <- generateSecretKey (new_project newToken)
               (new_environment newToken) ;;
  let createNewToken := with_secret newToken secret_ in
  insertNewApiToken createNewToken.

(** The object literal [newToken] that [initApiTokens] builds from one
    configured string. *)
Definition initial_newToken (token : string) : IApiToken :=
  let tokenParts := Js.split ":" token in
  {| createdAt := None;
     project := Js.at_index tokenParts 0;
     environment := Js.at_index tokenParts 1;
     secret := Js.render (Js.at_index tokenParts 0) ++ ":"
               ++ Js.render (Js.at_index tokenParts 1) ++ "."
               ++ Js.render (Js.at_index tokenParts 2);
     type := Js.str ApiTokenType_ADMIN;
     username := "admin";
     expiresAt := None |}.

(** The [for] loop of [initApiTokens]. *)
Fixpoint initApiTokens_loop (tokens : list string) : M unit :=
  match tokens with
  | [] => ret tt
  | token :: rest =>
      let newToken := initial_newToken token in
      lift (validateNewApiToken (type newToken) (project newToken)
              (environment newToken)) ;;;
      insertNewApiToken newToken ;;;
      initApiTokens_loop rest
  end.

Definition initApiTokens (tokens : list string) : M unit :=
  tokenCount <- await_store Store.Count Store.count ;;
  if negb (Z.eqb tokenCount 0) then ret tt
  else
    try_catch (initApiTokens_loop tokens)
      (fun _ => logger_error "Unable to create initial Admin API tokens").

End Service.

Arguments ApiTokenService St : clear implicits.
Arguments M St A : clear implicits.

(** ** Concrete surroundings, to run the service on examples *)

(** Values for the imported constants, to run examples: a wildcard scope
    "*", the two token types, the two permissions, and the SQLSTATE of a
    foreign-key violation. *)
Definition unleash_constants : Imported :=
  {| ALL := "*";
     ApiTokenType_ADMIN := "admin";
     ApiTokenType_CLIENT := "client";
     ADMIN := "ADMIN";
     CLIENT := "CLIENT";
     FOREIGN_KEY_VIOLATION := "23503" |}.

(** A store kept in memory: a table of tokens with a unique secret and
    foreign keys to the known projects and environments. *)
Module MemoryStore.

Record t : Type := mk {
  rows : list IApiToken;
  projects : list string;
  environments : list string;
  now : Z;
  reachable : bool
}.

Definition connection_refused : StoreError :=
  mkStoreError (Js.str "ECONNREFUSED") Js.undefined
    "connect ECONNREFUSED 127.0.0.1:5432".

Definition unique_violation : StoreError :=
  mkStoreError (Js.str "23505") (Js.str "api_tokens_pkey")
    "duplicate key value violates unique constraint".

Definition foreign_key_violation (constraint_ : string) : StoreError :=
  mkStoreError (Js.str "23503") (Js.str constraint_)
    "insert or update on table violates foreign key constraint".

Definition not_found : StoreError :=
  mkStoreError Js.undefined Js.undefined "No token found".

Definition known (ids : list string) (v : Js.value) : bool :=
  match v with
  | Js.str id => String.eqb id "*" || existsb (String.eqb id) ids
  | Js.undefined => false
  end.

Definition has_secret (secret_ : string) (row : IApiToken) : bool :=
  String.eqb (secret row) secret_.

Definition is_active (now_ : Z) (row : IApiToken) : bool :=
  match expiresAt row with
  | Some at_ => Z.ltb now_ at_
  | None => true
  end.

Definition guarded {A : Type} (db : t) (run : Outcome StoreError A * t)
  : Outcome StoreError A * t :=
  if reachable db then run else (Throws connection_refused, db).

Definition with_rows (rows_ : list IApiToken) (db : t) : t :=
  mk rows_ (projects db) (environments db) (now db) (reachable db).

Definition getAll (db : t) : Outcome StoreError (list IApiToken) * t :=
  guarded db (Returns (rows db), db).

Definition getAllActive (db : t) : Outcome StoreError (list IApiToken) * t :=
  guarded db (Returns (filter (is_active (now db)) (rows db)), db).

Definition count (db : t) : Outcome StoreError Z * t :=
  guarded db (Returns (Z.of_nat (length (rows db))), db).

Definition insert (newToken : IApiToken) (db : t)
  : Outcome StoreError IApiToken * t :=
  guarded db
    (if existsb (has_secret (secret newToken)) (rows db)
     then (Throws unique_violation, db)
     else if negb (known (projects db) (project newToken))
     then (Throws (foreign_key_violation "api_tokens_project_fkey"), db)
     else if negb (known (environments db) (environment newToken))
     then (Throws (foreign_key_violation "api_tokens_environment_fkey"), db)
     else
       let row :=
         mkToken (secret newToken) (username newToken) (type newToken)
           (environment newToken) (project newToken) (expiresAt newToken)
           (Some (now db)) in
       (Returns row, with_rows (rows db ++ [row]) db)).

Definition set_expiresAt (at_ : Z) (row : IApiToken) : IApiToken :=
  mkToken (secret row) (username row) (type row) (environment row)
    (project row) (Some at_) (createdAt row).

Definition setExpiry (secret_ : string) (at_ : Z) (db : t)
  : Outcome StoreError IApiToken * t :=
  guarded db
    (match find (has_secret secret_) (rows db) with
     | Some row =>
         (Returns (set_expiresAt at_ row),
          with_rows
            (map (fun r => if has_secret secret_ r then set_expiresAt at_ r
                           else r) (rows db)) db)
     | None => (Throws not_found, db)
     end).

Definition delete (secret_ : string) (db : t) : Outcome StoreError unit * t :=
  guarded db
    (Returns tt,
     with_rows (filter (fun r => negb (has_secret secret_ r)) (rows db)) db).

Definition api : Store.IApiTokenStore t :=
  {| Store.getAll := getAll;
     Store.getAllActive := getAllActive;
     Store.count := count;
     Store.insert := insert;
     Store.setExpiry := setExpiry;
     Store.delete := delete |}.

(** A reachable store with no token, one project and two environments. *)
Definition empty : t :=
  mk [] ["default"] ["development"; "production"] 1000 true.

End MemoryStore.

(** A service in front of [db], as the constructor leaves it before its first
    refresh: no cached token, nothing logged, no random byte taken. *)
Definition new_service (db : MemoryStore.t) (pool : nat -> byte)
  : ApiTokenService MemoryStore.t :=
  mkService db [] [] pool 0 [].


(** ** The three scope rules, as the specification words them *)

Section ScopeRules.
Context {imp : Imported}.

(** Rule 1: an ADMIN token scoped to a single project. *)
Definition admin_single_project (type_ project_ : Js.value) : Prop :=
  type_ = Js.str ApiTokenType_ADMIN /\ project_ <> Js.str ALL.

(** Rule 2: an ADMIN token scoped to a single environment. *)
Definition admin_single_environment (type_ environment_ : Js.value) : Prop :=
  type_ = Js.str ApiTokenType_ADMIN /\ environment_ <> Js.str ALL.

(** Rule 3: a CLIENT token scoped to all environments. *)
Definition client_all_environments (type_ environment_ : Js.value) : Prop :=
  type_ = Js.str ApiTokenType_CLIENT /\ environment_ = Js.str ALL.

End ScopeRules.

(** ** Values named inside [createApiToken] *)

Section Created.
Context {imp : Imported} {St : Type}.

Implicit Types (s : ApiTokenService St) (d : NewToken).

(** The secret [createApiToken] generates in state [s], and the record it
    hands to the store. *)
Definition secret_in d s : string :=
  Js.render (new_project d) ++ ":" ++ Js.render (new_environment d) ++ "."
  ++ Js.to_hex (next_bytes 28 s).

Definition record_in d s : IApiToken := with_secret d (secret_in d s).

Definition validated d : Outcome Thrown unit :=
  validateNewApiToken (new_type d) (new_project d) (new_environment d).


End Created.

(** ** Scenarios on the in-memory store *)

Section Scenarios.
#[local] Existing Instance unleash_constants.
#[local] Existing Instance MemoryStore.api.

(** A random source that hands out the same byte for ever. *)
Definition zero_pool : nat -> byte := fun _ => x00.

Definition fresh_service : ApiTokenService MemoryStore.t :=
  new_service MemoryStore.empty zero_pool.

(** A CLIENT descriptor for project "default", environment "development". *)
Definition client_descriptor (name : string) : NewToken :=
  mkNewToken name (Js.str "client") (Js.str "development") (Js.str "default")
    None.

Definition zero_secret : string :=
  "default:development.00000000000000000000000000000000000000000000000000000000".

(** The row the in-memory store returns for [client_descriptor name]. *)
Definition client_row (name : string) : IApiToken :=
  mkToken zero_secret name (Js.str "client") (Js.str "development")
    (Js.str "default") None (Some 1000%Z).

(** Create a token, then delete it: the store forgets it and the cache still
    holds it. *)
Definition after_first_create : ApiTokenService MemoryStore.t :=
  snd (createApiToken (client_descriptor "first") fresh_service).

Definition after_delete : ApiTokenService MemoryStore.t :=
  snd (delete zero_secret after_first_create).







(** A descriptor that names a project the store does not know. *)
Definition unknown_project_descriptor : NewToken :=
  mkNewToken "ci" (Js.str "client") (Js.str "development") (Js.str "nope")
    None.

(** A descriptor whose type is neither ADMIN nor CLIENT. *)
Definition frontend_descriptor : NewToken :=
  mkNewToken "web" (Js.str "frontend") (Js.str "*") (Js.str "*") None.

(** A store that already holds one token, and a service in front of it. *)
Definition seeded_store : MemoryStore.t :=
  MemoryStore.with_rows [client_row "first"] MemoryStore.empty.

Definition seeded_service : ApiTokenService MemoryStore.t :=
  new_service seeded_store zero_pool.

(** A store that cannot be reached, behind a service with one cached token. *)
Definition unreachable_store : MemoryStore.t :=
  MemoryStore.mk [] ["default"] ["development"; "production"] 1000 false.

Definition stale_service : ApiTokenService MemoryStore.t :=
  mkService unreachable_store [client_row "first"] [] zero_pool 0 [].

(** The seeder's record for the configured string "*:*:abc". *)
Definition admin_row : IApiToken :=
  mkToken "*:*.abc" "admin" (Js.str "admin") (Js.str "*") (Js.str "*") None
    None.

End Scenarios.

(** ** Further named values *)

Section Principal.
Context {imp : Imported}.

(** The principal [getUserForToken] builds from the record it found. *)
Definition principal_of (token : IApiToken) : ApiUser :=
  {| user_username := username token;
     user_permissions :=
       if Js.strict_eq (type token) (Js.str ApiTokenType_ADMIN)
       then [ADMIN] else [CLIENT];
     user_project := project token;
     user_environment := environment token;
     user_type := type token |}.

(** The scope of a record is legal: an ADMIN record is scoped to ALL twice,
    a CLIENT record is not scoped to ALL environments. *)
Definition scope_ok (r : IApiToken) : Prop :=
  (type r = Js.str ApiTokenType_ADMIN ->
   project r = Js.str ALL /\ environment r = Js.str ALL) /\
  (type r = Js.str ApiTokenType_CLIENT -> environment r <> Js.str ALL).

(** What the seeder logs when its loop throws. *)
Definition seed_failed_msg : string :=
  "Unable to create initial Admin API tokens".

(** The validator's verdict on the record built from a configured string. *)
Definition seed_verdict (token : string) : Outcome Thrown unit :=
  validateNewApiToken (type (initial_newToken token))
    (project (initial_newToken token)) (environment (initial_newToken token)).

End Principal.

(** The value of a lower-case hexadecimal digit. *)
Definition hex_value (c : ascii) : option N :=
  match find (fun n => Ascii.eqb (Js.hex_digit n) c)
          (map N.of_nat (seq 0 16)) with
  | Some n => Some n
  | None => None
  end.

(** The byte two hexadecimal digits stand for. *)
Definition byte_of_hex (hi lo : ascii) : option byte :=
  match hex_value hi, hex_value lo with
  | Some h, Some l => Byte.of_N (16 * h + l)
  | _, _ => None
  end.

(** A store with no token in it whose every other operation fails with the
    same error. *)
Module BrokenStore.

Definition t : Type := StoreError.

Definition failing {A : Type} (e : t) : Outcome StoreError A * t :=
  (Throws e, e).

Definition api : Store.IApiTokenStore t :=
  {| Store.getAll := failing;
     Store.getAllActive := failing;
     Store.count := fun e => (Returns 0%Z, e);
     Store.insert := fun _ => failing;
     Store.setExpiry := fun _ _ => failing;
     Store.delete := fun _ => failing |}.

(** A foreign-key violation on a constraint the service does not know. *)
Definition owner_violation : StoreError :=
  mkStoreError (Js.str "23503") (Js.str "api_tokens_owner_fkey")
    "insert or update on table violates foreign key constraint".

End BrokenStore.

(** A random source that hands out the byte 1 for ever. *)
Definition one_pool : nat -> byte := fun _ => x01.

(** A service in front of a broken store. *)
Definition broken_service : ApiTokenService BrokenStore.t :=
  mkService BrokenStore.owner_violation [] [] zero_pool 0 [].

(** An ADMIN descriptor scoped to one project. *)
Definition admin_project_descriptor : NewToken :=
  mkNewToken "ops" (Js.str "admin") (Js.str "*") (Js.str "myproj") None.

(** * Properties *)

(** ** Strings and values *)

Lemma strict_eq_spec (a b : Js.value) : Js.strict_eq a b = true <-> a = b.
Proof.
  destruct a as [|x], b as [|y]; simpl; split; intro H;
    try reflexivity; try discriminate.
  - apply String.eqb_eq in H. now subst.
  - injection H as ->. apply String.eqb_refl.
Qed.

Lemma strict_eq_refl (a : Js.value) : Js.strict_eq a a = true.
Proof. now apply strict_eq_spec. Qed.

Lemma strict_eq_neq (a b : Js.value) : a <> b -> Js.strict_eq a b = false.
Proof.
  intro H. destruct (Js.strict_eq a b) eqn:E; [|reflexivity].
  apply strict_eq_spec in E. contradiction.
Qed.

Lemma strict_eq_false (a b : Js.value) : Js.strict_eq a b = false -> a <> b.
Proof.
  intros E ->. rewrite strict_eq_refl in E. discriminate.
Qed.


Lemma prefix_append (p q : string) : String.prefix p (p ++ q) = true.
Proof.
  induction p as [|c p IH]; simpl.
  - now destruct q.
  - destruct (ascii_dec c c) as [_|N]; [exact IH | now elim N].
Qed.

Lemma includes_prefix (s needle : string) :
  String.prefix needle s = true -> Js.includes s needle = true.
Proof.
  destruct s; simpl; intros ->; reflexivity.
Qed.

Lemma includes_infix (pre needle post : string) :
  Js.includes (pre ++ needle ++ post) needle = true.
Proof.
  induction pre as [|c pre IH]; simpl.
  - apply includes_prefix, prefix_append.
  - rewrite IH. apply orb_true_r.
Qed.

Lemma split_free (sep : ascii) (s : string) :
  Js.free_of sep s = true -> Js.split sep s = [s].
Proof.
  induction s as [|c s IH]; simpl; [reflexivity|].
  intro H. apply andb_true_iff in H as [Hc Hs].
  apply negb_true_iff in Hc. rewrite Hc, (IH Hs). reflexivity.
Qed.

Lemma split_first (sep : ascii) (p rest : string) :
  Js.free_of sep p = true ->
  Js.split sep (p ++ String sep rest) = p :: Js.split sep rest.
Proof.
  induction p as [|c p IH]; simpl; intro H.
  - now rewrite Ascii.eqb_refl.
  - apply andb_true_iff in H as [Hc Hp].
    apply negb_true_iff in Hc. rewrite Hc, (IH Hp). reflexivity.
Qed.




(** ** The scope validator *)

Section ValidatorProperties.
Context {imp : Imported}.

Lemma validate_not_admin_not_client (type_ project_ environment_ : Js.value) :
  type_ <> Js.str ApiTokenType_ADMIN ->
  type_ <> Js.str ApiTokenType_CLIENT ->
  validateNewApiToken type_ project_ environment_ = Returns tt.
Proof.
  intros Ha Hc. unfold validateNewApiToken.
  now rewrite (strict_eq_neq _ _ Ha), (strict_eq_neq _ _ Hc).
Qed.

(** C1, as amended.  [validateNewApiToken] is a function of [type],
    [project] and [environment] alone.  It returns when none of the three
    scope rules is violated.  Otherwise it throws a [BadDataError] whose
    message is that of a rule the input violates.  An ADMIN token with a
    project other than ALL is rejected with the message naming "single
    project".  An ADMIN token with an environment other than ALL is rejected
    with the message naming "single environment" when its project is ALL, and
    with the "single project" message when its project is not ALL either,
    that rule being checked first.  A CLIENT token with environment ALL is
    rejected with the message naming "all environments". *)
Theorem validateNewApiToken_contract
  (type_ project_ environment_ : Js.value) :
  ApiTokenType_ADMIN <> ApiTokenType_CLIENT ->
  let result := validateNewApiToken type_ project_ environment_ in
  let rule1 := admin_single_project type_ project_ in
  let rule2 := admin_single_environment type_ environment_ in
  let rule3 := client_all_environments type_ environment_ in
  (~ rule1 -> ~ rule2 -> ~ rule3 -> result = Returns tt) /\
  (result = Returns tt -> ~ rule1 /\ ~ rule2 /\ ~ rule3) /\
  (forall err, result = Throws err ->
     (rule1 /\ err = BadDataError single_project_msg) \/
     (rule2 /\ err = BadDataError single_environment_msg) \/
     (rule3 /\ err = BadDataError all_environments_msg)) /\
  (rule1 -> result = Throws (BadDataError single_project_msg)) /\
  (rule2 -> project_ = Js.str ALL ->
   result = Throws (BadDataError single_environment_msg)) /\
  (rule2 -> project_ <> Js.str ALL ->
   result = Throws (BadDataError single_project_msg)) /\
  (rule3 -> result = Throws (BadDataError all_environments_msg)) /\
  Js.includes single_project_msg "single project" = true /\
  Js.includes single_environment_msg "single environment" = true /\
  Js.includes all_environments_msg "all environments" = true.
Proof.
  intros Hdistinct result rule1 rule2 rule3.
  subst result rule1 rule2 rule3.
  unfold admin_single_project, admin_single_environment,
    client_all_environments, validateNewApiToken.
  assert (Hac : Js.str ApiTokenType_ADMIN <> Js.str ApiTokenType_CLIENT)
    by (intro E; injection E as E; contradiction).
  destruct (Js.strict_eq type_ (Js.str ApiTokenType_ADMIN)) eqn:Ea;
    destruct (Js.strict_eq type_ (Js.str ApiTokenType_CLIENT)) eqn:Ec;
    destruct (Js.strict_eq project_ (Js.str ALL)) eqn:Ep;
    destruct (Js.strict_eq environment_ (Js.str ALL)) eqn:Ee;
    simpl;
    repeat match goal with
    | H : Js.strict_eq _ _ = true |- _ => apply strict_eq_spec in H
    | H : Js.strict_eq _ _ = false |- _ => apply strict_eq_false in H
    end;
    try (exfalso; congruence);
    repeat split;
    try reflexivity;
    try (intros; exfalso; intuition congruence);
    try (intros; discriminate);
    try (intros [? ?]; congruence);
    try (intros err Herr; injection Herr as <-; intuition congruence).
Qed.

End ValidatorProperties.

(** ** The service *)

Section ServiceProperties.
Context {imp : Imported} {St : Type} {api : Store.IApiTokenStore St}.

Implicit Types (s : ApiTokenService St) (d : NewToken).

Lemma await_store_eq {A : Type} (c : Store.Call)
  (op : St -> Outcome StoreError A * St) s :
  await_store c op s
  = (passed_on (fst (op (store s))), after_call c (snd (op (store s))) s).
Proof.
  unfold await_store. now destruct (op (store s)).
Qed.

Lemma insert_failed_throws {A : Type} (newApiToken : IApiToken)
  (error : Thrown) s :
  exists err, @insert_failed imp St A newApiToken error s = (Throws err, s).
Proof.
  unfold insert_failed.
  destruct error as [msg|e]; [now eexists|].
  destruct (Js.strict_eq (code e) _); now eexists.
Qed.

Lemma insertNewApiToken_returns (newApiToken token : IApiToken) s st' :
  Store.insert newApiToken (store s) = (Returns token, st') ->
  insertNewApiToken newApiToken s
  = (Returns token,
     with_activeTokens (activeTokens s ++ [token])
       (after_call (Store.Insert newApiToken) st' s)).
Proof.
  intro H. unfold insertNewApiToken, try_catch, bind.
  rewrite await_store_eq, H. reflexivity.
Qed.

Lemma insertNewApiToken_throws (newApiToken : IApiToken) (e : StoreError)
  s st' :
  Store.insert newApiToken (store s) = (Throws e, st') ->
  insertNewApiToken newApiToken s
  = insert_failed newApiToken (FromStore e)
      (after_call (Store.Insert newApiToken) st' s).
Proof.
  intro H. unfold insertNewApiToken, try_catch, bind.
  rewrite await_store_eq, H. reflexivity.
Qed.

Lemma insertNewApiToken_calls (newApiToken : IApiToken) s :
  calls (snd (insertNewApiToken newApiToken s))
  = (calls s ++ [Store.Insert newApiToken])%list /\
  logged (snd (insertNewApiToken newApiToken s)) = logged s.
Proof.
  destruct (Store.insert newApiToken (store s)) as [[token|e] st'] eqn:H.
  - rewrite (insertNewApiToken_returns _ _ _ _ H). now split.
  - rewrite (insertNewApiToken_throws _ _ _ _ H).
    destruct (@insert_failed_throws IApiToken newApiToken (FromStore e)
                (after_call (Store.Insert newApiToken) st' s)) as [err ->].
    now split.
Qed.

Lemma createApiToken_validated d s :
  validated d = Returns tt ->
  createApiToken d s
  = insertNewApiToken (record_in d s)
      (with_random_taken (random_taken s + 28) s).
Proof.
  unfold validated. intro H.
  unfold createApiToken, bind, lift. rewrite H. reflexivity.
Qed.

Lemma createApiToken_rejected d s (err : Thrown) :
  validated d = Throws err -> createApiToken d s = (Throws err, s).
Proof.
  unfold validated. intro H.
  unfold createApiToken, bind, lift. rewrite H. reflexivity.
Qed.

Lemma getUserForToken_cache (x : string) s1 s2 :
  activeTokens s1 = activeTokens s2 ->
  getUserForToken x s1 = getUserForToken x s2.
Proof.
  unfold getUserForToken. now intros ->.
Qed.

(** C5.  A refresh never throws.  When the fetch of the active tokens fails
    the cache keeps the previous snapshot; when it succeeds the cache is
    exactly the fetched list. *)
Theorem fetchActiveTokens_fail_open s :
  fst (fetchActiveTokens s) = Returns tt /\
  (forall e st', Store.getAllActive (store s) = (Throws e, st') ->
     activeTokens (snd (fetchActiveTokens s)) = activeTokens s) /\
  (forall tokens st', Store.getAllActive (store s) = (Returns tokens, st') ->
     activeTokens (snd (fetchActiveTokens s)) = tokens).
Proof.
  unfold fetchActiveTokens, try_finally_return, bind, getAllActiveTokens.
  rewrite await_store_eq. simpl.
  split; [reflexivity|].
  split; intros x st' H; rewrite H; reflexivity.
Qed.

(** C7.  [updateExpiry] makes one call, the store's [setExpiry] with the same
    arguments, and returns what it returns; [delete] makes one call, the
    store's [delete].  Neither changes the cache, so every lookup answers
    after a delete as it did before: a deleted token is still returned until
    a refresh replaces the cache. *)
Theorem updateExpiry_delete_keep_cache (secret_ : string) (expiresAt_ : Z) s :
  updateExpiry secret_ expiresAt_ s
  = (passed_on (fst (Store.setExpiry secret_ expiresAt_ (store s))),
     after_call (Store.SetExpiry secret_ expiresAt_)
       (snd (Store.setExpiry secret_ expiresAt_ (store s))) s) /\
  activeTokens (snd (updateExpiry secret_ expiresAt_ s)) = activeTokens s /\
  delete secret_ s
  = (passed_on (fst (Store.delete secret_ (store s))),
     after_call (Store.Delete secret_)
       (snd (Store.delete secret_ (store s))) s) /\
  activeTokens (snd (delete secret_ s)) = activeTokens s /\
  (forall x, getUserForToken x (snd (delete secret_ s))
             = getUserForToken x s).
Proof.
  unfold updateExpiry, delete. rewrite !await_store_eq. simpl.
  repeat split; reflexivity.
Qed.

(** C9.  When the store's insert throws, whatever the error, the insert
    throws too and the cache is as it was: nothing is appended, and every
    lookup answers as before.  This holds for [insertNewApiToken] on any
    record and for [createApiToken] on any descriptor. *)
Theorem failed_insert_keeps_cache :
  (forall (newApiToken : IApiToken) (e : StoreError) s st',
     Store.insert newApiToken (store s) = (Throws e, st') ->
     let after := insertNewApiToken newApiToken s in
     (exists err, fst after = Throws err) /\
     activeTokens (snd after) = activeTokens s /\
     (forall x, getUserForToken x (snd after) = getUserForToken x s)) /\
  (forall d (e : StoreError) s st',
     Store.insert (record_in d s) (store s) = (Throws e, st') ->
     let after := createApiToken d s in
     (exists err, fst after = Throws err) /\
     activeTokens (snd after) = activeTokens s /\
     (forall x, getUserForToken x (snd after) = getUserForToken x s)).
Proof.
  assert (Hinsert : forall (newApiToken : IApiToken) (e : StoreError) s st',
     Store.insert newApiToken (store s) = (Throws e, st') ->
     (exists err, fst (insertNewApiToken newApiToken s) = Throws err) /\
     activeTokens (snd (insertNewApiToken newApiToken s)) = activeTokens s).
  { intros newApiToken e s st' H.
    rewrite (insertNewApiToken_throws _ _ _ _ H).
    destruct (@insert_failed_throws IApiToken newApiToken (FromStore e)
                (after_call (Store.Insert newApiToken) st' s)) as [err ->].
    split; [now exists err | reflexivity]. }
  split.
  - intros newApiToken e s st' H after. subst after.
    destruct (Hinsert _ _ _ _ H) as [Herr Hcache].
    repeat split; try assumption.
    intro x. now apply getUserForToken_cache.
  - intros d e s st' H after. subst after.
    destruct (validated d) as [[]|err] eqn:Hv.
    + rewrite (createApiToken_validated _ s Hv).
      destruct (Hinsert (record_in d s) e
                  (with_random_taken (random_taken s + 28) s) st' H)
        as [Herr Hcache].
      simpl in Hcache.
      repeat split; try assumption.
      intro x. now apply getUserForToken_cache.
    + rewrite (createApiToken_rejected _ s _ Hv). simpl.
      split; [now exists err|].
      split; [reflexivity | intro x; reflexivity].
Qed.

(** C4.  Take a create whose descriptor passes validation and whose store
    insert throws [e].  If [e] is a foreign-key violation on the project
    constraint, the create throws a [BadDataError] whose message contains the
    project that was supplied; on the environment constraint, one whose
    message contains the environment that was supplied.  If [e] is not a
    foreign-key violation the create throws [e] itself. *)
Theorem createApiToken_insert_failure d (e : StoreError) s st' :
  validated d = Returns tt ->
  Store.insert (record_in d s) (store s) = (Throws e, st') ->
  let surfaced := fst (createApiToken d s) in
  (code e = Js.str FOREIGN_KEY_VIOLATION ->
   constraint e = Js.str "api_tokens_project_fkey" ->
   exists msg, surfaced = Throws (BadDataError msg) /\
     Js.includes msg (Js.render (new_project d)) = true) /\
  (code e = Js.str FOREIGN_KEY_VIOLATION ->
   constraint e = Js.str "api_tokens_environment_fkey" ->
   exists msg, surfaced = Throws (BadDataError msg) /\
     Js.includes msg (Js.render (new_environment d)) = true) /\
  (code e <> Js.str FOREIGN_KEY_VIOLATION ->
   surfaced = Throws (FromStore e)).
Proof.
  intros Hv H surfaced. subst surfaced.
  rewrite (createApiToken_validated _ s Hv).
  assert (H' : Store.insert (record_in d s)
                 (store (with_random_taken (random_taken s + 28) s))
               = (Throws e, st')) by exact H.
  rewrite (insertNewApiToken_throws _ _ _ _ H').
  unfold insert_failed, throw.
  repeat split.
  - intros Hcode Hcons. rewrite Hcode, Hcons, strict_eq_refl. simpl.
    eexists. split; [reflexivity|].
    unfold project_missing_msg. apply includes_infix.
  - intros Hcode Hcons. rewrite Hcode, Hcons, strict_eq_refl. simpl.
    eexists. split; [reflexivity|].
    unfold environment_missing_msg. apply includes_infix.
  - intro Hcode. rewrite (strict_eq_neq _ _ Hcode). reflexivity.
Qed.

(** C10.  A type that is neither ADMIN nor CLIENT (an unknown string, or a
    missing one) passes the validator whatever the project and environment
    are, and a create with such a descriptor goes on to the store insert. *)
Theorem unknown_type_is_not_rejected d s :
  new_type d <> Js.str ApiTokenType_ADMIN ->
  new_type d <> Js.str ApiTokenType_CLIENT ->
  (forall project_ environment_,
     validateNewApiToken (new_type d) project_ environment_ = Returns tt) /\
  validated d = Returns tt /\
  calls (snd (createApiToken d s))
  = (calls s ++ [Store.Insert (record_in d s)])%list.
Proof.
  intros Ha Hc.
  assert (Hv : validated d = Returns tt)
    by now apply validate_not_admin_not_client.
  split; [intros; now apply validate_not_admin_not_client|].
  split; [exact Hv|].
  rewrite (createApiToken_validated _ s Hv).
  now destruct (insertNewApiToken_calls (record_in d s)
                  (with_random_taken (random_taken s + 28) s)).
Qed.


(** C6.  When the store reports a non-zero token count the seeder returns
    after the count check: the count is its only store call, nothing is
    inserted, cached or logged, and the configured list is not looked at.  A
    second run against a store that still reports a non-zero count adds one
    more count call and again no insert. *)
Theorem initApiTokens_seeded_store (tokens : list string) (n : Z) s st' :
  Store.count (store s) = (Returns n, st') ->
  n <> 0%Z ->
  initApiTokens tokens s = (Returns tt, after_call Store.Count st' s) /\
  initApiTokens tokens s = initApiTokens [] s /\
  filter Store.is_insert (calls (snd (initApiTokens tokens s)))
  = filter Store.is_insert (calls s) /\
  (forall (tokens2 : list string) (n2 : Z) st'',
     Store.count st' = (Returns n2, st'') ->
     n2 <> 0%Z ->
     let s1 := snd (initApiTokens tokens s) in
     let s2 := snd (initApiTokens tokens2 s1) in
     calls s2 = (calls s ++ [Store.Count; Store.Count])%list /\
     filter Store.is_insert (calls s2) = filter Store.is_insert (calls s1) /\
     activeTokens s2 = activeTokens s /\
     logged s2 = logged s).
Proof.
  intros Hcount Hn.
  assert (Hskip : forall (ts : list string) (m : Z) (x : ApiTokenService St)
                         (st1 : St),
            Store.count (store x) = (Returns m, st1) -> m <> 0%Z ->
            initApiTokens ts x = (Returns tt, after_call Store.Count st1 x)).
  { intros ts m x st1 Hc Hm. unfold initApiTokens, bind.
    rewrite await_store_eq, Hc. simpl.
    destruct (Z.eqb_spec m 0) as [->|_]; [now elim Hm | reflexivity]. }
  rewrite !(Hskip _ _ _ _ Hcount Hn).
  split; [reflexivity|]. split; [reflexivity|]. simpl.
  split.
  - rewrite filter_app. simpl. apply app_nil_r.
  - intros tokens2 n2 st'' Hcount2 Hn2.
    assert (H2 : Store.count (store (after_call Store.Count st' s))
                 = (Returns n2, st'')) by exact Hcount2.
    rewrite (Hskip tokens2 _ _ _ H2 Hn2). simpl.
    split; [now rewrite <- app_assoc|].
    split; [|split; reflexivity].
    rewrite !filter_app. simpl. now rewrite !app_nil_r.
Qed.


Lemma validate_admin_all :
  ApiTokenType_ADMIN <> ApiTokenType_CLIENT ->
  validateNewApiToken (Js.str ApiTokenType_ADMIN) (Js.str ALL) (Js.str ALL)
  = Returns tt.
Proof.
  intro Hd. unfold validateNewApiToken.
  rewrite (strict_eq_neq (Js.str ApiTokenType_ADMIN)
             (Js.str ApiTokenType_CLIENT))
    by (intro E; injection E as E; contradiction).
  rewrite !strict_eq_refl. reflexivity.
Qed.

Lemma initial_newToken_parts (p e suffix : string) :
  Js.free_of ":" p = true ->
  Js.free_of ":" e = true ->
  Js.free_of ":" suffix = true ->
  initial_newToken (p ++ ":" ++ e ++ ":" ++ suffix)
  = {| secret := p ++ ":" ++ e ++ "." ++ suffix;
       username := "admin";
       type := Js.str ApiTokenType_ADMIN;
       environment := Js.str e;
       project := Js.str p;
       expiresAt := None;
       createdAt := None |}.
Proof.
  intros Hp He Hs. unfold initial_newToken.
  change (p ++ ":" ++ e ++ ":" ++ suffix)
    with (p ++ String ":" (e ++ String ":" suffix)).
  rewrite (split_first _ _ _ Hp), (split_first _ _ _ He), (split_free _ _ Hs).
  reflexivity.
Qed.





End ServiceProperties.

(** * Further properties of the service *)

(** ** Lists and hexadecimal strings *)

Lemma find_split {A : Type} (f : A -> bool) (l : list A) (a : A) :
  find f l = Some a ->
  exists before after,
    l = (before ++ a :: after)%list /\
    Forall (fun x => f x = false) before /\
    f a = true.
Proof.
  induction l as [|x l IH]; simpl; [discriminate|].
  destruct (f x) eqn:Hx.
  - intros [= ->]. exists [], l. repeat split; [constructor | exact Hx].
  - intro H. destruct (IH H) as (before & after & -> & Hb & Ha).
    exists (x :: before), after. repeat split; [|exact Ha].
    constructor; assumption.
Qed.

Lemma find_none_iff {A : Type} (f : A -> bool) (l : list A) :
  find f l = None <-> Forall (fun x => f x = false) l.
Proof.
  induction l as [|x l IH]; simpl.
  - split; [constructor | reflexivity].
  - destruct (f x) eqn:Hx; split.
    + discriminate.
    + intro H. inversion H; subst. congruence.
    + intro H. constructor; [exact Hx | now apply IH].
    + intro H. inversion H; subst. now apply IH.
Qed.

Lemma find_app_one {A : Type} (f : A -> bool) (l : list A) (a : A) :
  find f (l ++ [a])
  = match find f l with
    | Some x => Some x
    | None => if f a then Some a else None
    end.
Proof.
  induction l as [|x l IH]; simpl; [reflexivity|].
  destruct (f x); [reflexivity | exact IH].
Qed.

Lemma append_cancel (pre a b : string) : pre ++ a = pre ++ b -> a = b.
Proof.
  induction pre as [|c pre IH]; simpl; [trivial|].
  intros [= H]. now apply IH.
Qed.

Lemma secret_cancel (p e h1 h2 : string) :
  p ++ ":" ++ e ++ "." ++ h1 = p ++ ":" ++ e ++ "." ++ h2 -> h1 = h2.
Proof.
  intro H. apply append_cancel in H.
  change (":" ++ e ++ "." ++ h1) with (String ":" (e ++ "." ++ h1)) in H.
  change (":" ++ e ++ "." ++ h2) with (String ":" (e ++ "." ++ h2)) in H.
  injection H as H. apply append_cancel in H.
  now injection H.
Qed.

Lemma byte_of_hex_digits (b : byte) :
  byte_of_hex (Js.hex_digit (N.div (Byte.to_N b) 16))
    (Js.hex_digit (N.modulo (Byte.to_N b) 16))
  = Some b.
Proof.
  destruct b; vm_compute; reflexivity.
Qed.

Lemma to_hex_injective (xs ys : list byte) :
  Js.to_hex xs = Js.to_hex ys -> xs = ys.
Proof.
  revert ys. induction xs as [|x xs IH]; intros [|y ys]; simpl;
    try discriminate; [reflexivity|].
  intros [= Hhi Hlo Hrest].
  pose proof (byte_of_hex_digits x) as Hx.
  rewrite Hhi, Hlo, byte_of_hex_digits in Hx.
  injection Hx as ->. f_equal. now apply IH.
Qed.

(** ** Lookups *)

Section LookupProperties.
Context {imp : Imported} {St : Type} {api : Store.IApiTokenStore St}.

Implicit Types (s : ApiTokenService St) (d : NewToken).

Lemma getUserForToken_find (x : string) s :
  getUserForToken x s
  = option_map principal_of
      (find (fun t => String.eqb (secret t) x) (activeTokens s)).
Proof.
  unfold getUserForToken. now destruct (find _ _).
Qed.

Lemma secret_differs (x : string) (l : list IApiToken) :
  Forall (fun t => String.eqb (secret t) x = false) l
  <-> Forall (fun t => secret t <> x) l.
Proof.
  split; intro H; (eapply Forall_impl; [|exact H]); intros t Ht;
    now apply String.eqb_neq.
Qed.

(** X1.  A lookup answers "not found" exactly when no cached record carries
    the secret, character for character; so it does on an empty cache. *)
Theorem getUserForToken_not_found (x : string) s :
  getUserForToken x s = None
  <-> Forall (fun t => secret t <> x) (activeTokens s).
Proof.
  rewrite getUserForToken_find, <- secret_differs, <- find_none_iff.
  destruct (find _ _); simpl; split; congruence.
Qed.

(** X2.  A lookup that finds a principal built it from the first cached
    record with the secret: no record before it carries the secret, and the
    principal has that record's username, project, environment and type.  Its
    permissions are [[ADMIN]] when the record's type is ADMIN and [[CLIENT]]
    for any other type, an unknown or a missing one included. *)
Theorem getUserForToken_first_match (x : string) (u : ApiUser) s :
  getUserForToken x s = Some u ->
  exists before token after,
    activeTokens s = (before ++ token :: after)%list /\
    Forall (fun t => secret t <> x) before /\
    secret token = x /\
    user_username u = username token /\
    user_project u = project token /\
    user_environment u = environment token /\
    user_type u = type token /\
    (type token = Js.str ApiTokenType_ADMIN -> user_permissions u = [ADMIN]) /\
    (type token <> Js.str ApiTokenType_ADMIN ->
     user_permissions u = [CLIENT]).
Proof.
  rewrite getUserForToken_find.
  destruct (find _ _) as [token|] eqn:Hfind; simpl; [|discriminate].
  intros [= <-].
  destruct (find_split _ _ _ Hfind) as (before & after & Hl & Hb & Ht).
  exists before, token, after.
  split; [exact Hl|]. split; [now apply secret_differs|].
  split; [now apply String.eqb_eq|].
  repeat (split; [reflexivity|]). simpl. split.
  - intros ->. now rewrite strict_eq_refl.
  - intro Hn. now rewrite (strict_eq_neq _ _ Hn).
Qed.

Lemma lookup_after_push (x : string) (token : IApiToken) s :
  let s' := with_activeTokens (activeTokens s ++ [token]) s in
  getUserForToken x s' = getUserForToken x s \/
  (getUserForToken x s = None /\ secret token = x /\
   getUserForToken x s' = Some (principal_of token)).
Proof.
  intros s'. subst s'. rewrite !getUserForToken_find. simpl.
  rewrite find_app_one.
  destruct (find _ (activeTokens s)) as [t|]; [now left|].
  destruct (String.eqb (secret token) x) eqn:E; [|now left].
  right. apply String.eqb_eq in E. now repeat split.
Qed.

Lemma insertNewApiToken_lookup (x : string) (newApiToken : IApiToken) s :
  let after := insertNewApiToken newApiToken s in
  getUserForToken x (snd after) = getUserForToken x s \/
  (getUserForToken x s = None /\
   exists token, fst after = Returns token /\ secret token = x /\
     getUserForToken x (snd after) = Some (principal_of token)).
Proof.
  intros after. subst after.
  destruct (Store.insert newApiToken (store s)) as [[token|e] st'] eqn:H.
  - rewrite (insertNewApiToken_returns _ _ _ _ H). simpl.
    destruct (lookup_after_push x token
                (after_call (Store.Insert newApiToken) st' s))
      as [Hsame|(Hnone & Hsec & Hnew)].
    + left. exact Hsame.
    + right. split; [exact Hnone|]. exists token. now repeat split.
  - left. rewrite (insertNewApiToken_throws _ _ _ _ H).
    destruct (@insert_failed_throws imp St IApiToken newApiToken
                (FromStore e) (after_call (Store.Insert newApiToken) st' s))
      as [err ->].
    reflexivity.
Qed.

(** X3.  An insert or a create never changes the answer of a lookup that
    found a principal: whatever their outcome, each lookup answers as before,
    except that a secret not found before is found when it is the secret of
    the record just returned. *)
Theorem lookups_survive_create (x : string) :
  (forall (newApiToken : IApiToken) s,
     let after := insertNewApiToken newApiToken s in
     getUserForToken x (snd after) = getUserForToken x s \/
     (getUserForToken x s = None /\
      exists token, fst after = Returns token /\ secret token = x /\
        getUserForToken x (snd after) = Some (principal_of token))) /\
  (forall d s,
     let after := createApiToken d s in
     getUserForToken x (snd after) = getUserForToken x s \/
     (getUserForToken x s = None /\
      exists token, fst after = Returns token /\ secret token = x /\
        getUserForToken x (snd after) = Some (principal_of token))).
Proof.
  split; [intros; apply insertNewApiToken_lookup|].
  intros d s after. subst after.
  destruct (validated d) as [[]|err] eqn:Hv.
  - rewrite (createApiToken_validated _ s Hv).
    apply (insertNewApiToken_lookup x (record_in d s)
             (with_random_taken (random_taken s + 28) s)).
  - left. now rewrite (createApiToken_rejected _ s _ Hv).
Qed.

(** X13.  After a refresh whose fetch succeeded, lookups answer from the
    fetched list alone: a secret carried by no fetched record is not found,
    whatever the cache held before.  The refresh made one store call, the
    fetch, and logged nothing. *)
Theorem fetchActiveTokens_replaces_cache (tokens : list IApiToken) s st' :
  Store.getAllActive (store s) = (Returns tokens, st') ->
  let after := snd (fetchActiveTokens s) in
  (forall x,
     getUserForToken x after
     = option_map principal_of
         (find (fun t => String.eqb (secret t) x) tokens)) /\
  (forall x, Forall (fun t => secret t <> x) tokens ->
     getUserForToken x after = None) /\
  calls after = (calls s ++ [Store.GetAllActive])%list /\
  logged after = logged s.
Proof.
  intros H after.
  assert (Hafter : after
            = with_activeTokens tokens (after_call Store.GetAllActive st' s)).
  { subst after.
    unfold fetchActiveTokens, try_finally_return, bind, getAllActiveTokens.
    rewrite await_store_eq, H. reflexivity. }
  rewrite Hafter. split; [intro x; apply getUserForToken_find|].
  split; [|split; reflexivity].
  intros x Hx. rewrite getUserForToken_find. simpl.
  apply secret_differs, find_none_iff in Hx. now rewrite Hx.
Qed.

End LookupProperties.

(** ** Creating tokens *)

Section CreateProperties.
Context {imp : Imported} {St : Type} {api : Store.IApiTokenStore St}.

Implicit Types (s : ApiTokenService St) (d : NewToken).

Lemma validate_returns_scope (type_ project_ environment_ : Js.value) :
  validateNewApiToken type_ project_ environment_ = Returns tt ->
  (type_ = Js.str ApiTokenType_ADMIN ->
   project_ = Js.str ALL /\ environment_ = Js.str ALL) /\
  (type_ = Js.str ApiTokenType_CLIENT -> environment_ <> Js.str ALL).
Proof.
  unfold validateNewApiToken.
  destruct (Js.strict_eq type_ (Js.str ApiTokenType_ADMIN)) eqn:Ea;
    destruct (Js.strict_eq type_ (Js.str ApiTokenType_CLIENT)) eqn:Ec;
    destruct (Js.strict_eq project_ (Js.str ALL)) eqn:Ep;
    destruct (Js.strict_eq environment_ (Js.str ALL)) eqn:Ee;
    simpl; try discriminate; intros _;
    repeat match goal with
    | H : Js.strict_eq _ _ = true |- _ => apply strict_eq_spec in H
    | H : Js.strict_eq _ _ = false |- _ => apply strict_eq_false in H
    end;
    split; intros; try split; congruence.
Qed.

Lemma validate_throws_bad_data (type_ project_ environment_ : Js.value)
  (err : Thrown) :
  validateNewApiToken type_ project_ environment_ = Throws err ->
  exists msg, err = BadDataError msg.
Proof.
  unfold validateNewApiToken.
  repeat match goal with
  | |- context [if ?c then _ else _] => destruct c
  end; intros [= <-]; eexists; reflexivity.
Qed.

Lemma broken_rule_throws d :
  admin_single_project (new_type d) (new_project d) \/
  admin_single_environment (new_type d) (new_environment d) \/
  client_all_environments (new_type d) (new_environment d) ->
  exists msg, validated d = Throws (BadDataError msg).
Proof.
  unfold validated. intro Hrule.
  destruct (validateNewApiToken (new_type d) (new_project d)
              (new_environment d)) as [[]|err] eqn:Hv.
  - exfalso. destruct (validate_returns_scope _ _ _ Hv) as [Hadmin Hclient].
    destruct Hrule as [[Ht Hp]|[[Ht He]|[Ht He]]].
    + now destruct (Hadmin Ht).
    + now destruct (Hadmin Ht).
    + now apply (Hclient Ht).
  - destruct (validate_throws_bad_data _ _ _ _ Hv) as [msg ->].
    now exists msg.
Qed.

Lemma insertNewApiToken_frame (newApiToken : IApiToken) s :
  random_taken (snd (insertNewApiToken newApiToken s)) = random_taken s /\
  random_pool (snd (insertNewApiToken newApiToken s)) = random_pool s.
Proof.
  destruct (Store.insert newApiToken (store s)) as [[token|e] st'] eqn:H.
  - rewrite (insertNewApiToken_returns _ _ _ _ H). now split.
  - rewrite (insertNewApiToken_throws _ _ _ _ H).
    destruct (@insert_failed_throws imp St IApiToken newApiToken
                (FromStore e) (after_call (Store.Insert newApiToken) st' s))
      as [err ->].
    now split.
Qed.

(** X4.  A create whose descriptor breaks a scope rule throws a
    [BadDataError] and leaves the service exactly as it was: no store call,
    no random byte taken, nothing cached or logged. *)
Theorem createApiToken_broken_rule d s :
  admin_single_project (new_type d) (new_project d) \/
  admin_single_environment (new_type d) (new_environment d) \/
  client_all_environments (new_type d) (new_environment d) ->
  exists msg, createApiToken d s = (Throws (BadDataError msg), s).
Proof.
  intro Hrule. destruct (broken_rule_throws d Hrule) as [msg Hv].
  exists msg. now apply createApiToken_rejected.
Qed.

(** X5.  A create either throws a [BadDataError] before doing anything, or
    makes exactly one store call: the insert of the descriptor with the
    generated secret, a record whose scope is legal.  In the second case it
    has taken 28 bytes from the random source, whether the insert succeeded
    or not, and has logged nothing. *)
Theorem createApiToken_one_legal_insert d s :
  (exists msg, createApiToken d s = (Throws (BadDataError msg), s)) \/
  (validated d = Returns tt /\
   calls (snd (createApiToken d s))
   = (calls s ++ [Store.Insert (record_in d s)])%list /\
   scope_ok (record_in d s) /\
   random_taken (snd (createApiToken d s)) = random_taken s + 28 /\
   logged (snd (createApiToken d s)) = logged s).
Proof.
  destruct (validated d) as [[]|err] eqn:Hv.
  - right. split; [reflexivity|].
    rewrite (createApiToken_validated _ s Hv).
    destruct (insertNewApiToken_calls (record_in d s)
                (with_random_taken (random_taken s + 28) s)) as [Hc Hl].
    destruct (insertNewApiToken_frame (record_in d s)
                (with_random_taken (random_taken s + 28) s)) as [Hr _].
    split; [exact Hc|]. split; [|split; [exact Hr | exact Hl]].
    exact (validate_returns_scope _ _ _ Hv).
  - left. destruct (validate_throws_bad_data _ _ _ _ Hv) as [msg ->].
    exists msg. now apply createApiToken_rejected.
Qed.

(** X6.  When the store's insert fails with a foreign-key violation on a
    constraint other than the project and the environment one, the create
    throws a [BadDataError] that carries the store's own message. *)
Theorem createApiToken_other_constraint d (e : StoreError) s st' :
  validated d = Returns tt ->
  Store.insert (record_in d s) (store s) = (Throws e, st') ->
  code e = Js.str FOREIGN_KEY_VIOLATION ->
  constraint e <> Js.str "api_tokens_project_fkey" ->
  constraint e <> Js.str "api_tokens_environment_fkey" ->
  fst (createApiToken d s) = Throws (BadDataError (message e)).
Proof.
  intros Hv H Hcode Hp He.
  rewrite (createApiToken_validated _ s Hv).
  assert (H' : Store.insert (record_in d s)
                 (store (with_random_taken (random_taken s + 28) s))
               = (Throws e, st')) by exact H.
  rewrite (insertNewApiToken_throws _ _ _ _ H').
  unfold insert_failed, throw.
  now rewrite Hcode, strict_eq_refl, (strict_eq_neq _ _ Hp),
    (strict_eq_neq _ _ He).
Qed.

(** X12.  For one project and environment, secrets generated from different
    random bytes differ: the hexadecimal rendering loses nothing. *)
Theorem generateSecretKey_distinct (project_ environment_ : Js.value)
  (s1 s2 : ApiTokenService St) :
  next_bytes 28 s1 <> next_bytes 28 s2 ->
  fst (generateSecretKey project_ environment_ s1)
  <> fst (generateSecretKey project_ environment_ s2).
Proof.
  intros Hbytes Heq. apply Hbytes, to_hex_injective.
  apply (secret_cancel (Js.render project_) (Js.render environment_)).
  assert (Hinj : forall a b : string,
            @Returns Thrown string a = Returns b -> a = b)
    by (intros a b [= ->]; reflexivity).
  apply Hinj. exact Heq.
Qed.

End CreateProperties.

(** ** Seeding *)

Section SeedProperties.
Context {imp : Imported} {St : Type} {api : Store.IApiTokenStore St}.

Implicit Types (s : ApiTokenService St).

Lemma initApiTokens_loop_cons (token : string) (rest : list string) s :
  initApiTokens_loop (token :: rest) s
  = match seed_verdict token with
    | Throws err => (Throws err, s)
    | Returns _ =>
        match insertNewApiToken (initial_newToken token) s with
        | (Returns _, s') => initApiTokens_loop rest s'
        | (Throws err, s') => (Throws err, s')
        end
    end.
Proof.
  unfold seed_verdict. simpl. unfold bind at 1, lift.
  destruct (validateNewApiToken _ _ _); [|reflexivity].
  unfold bind. now destruct (insertNewApiToken _ s) as [[tok|err] s'].
Qed.

Lemma initApiTokens_loop_logged (tokens : list string) s :
  logged (snd (initApiTokens_loop tokens s)) = logged s.
Proof.
  revert s. induction tokens as [|token rest IH]; intro s; [reflexivity|].
  rewrite initApiTokens_loop_cons.
  destruct (seed_verdict token); [|reflexivity].
  destruct (insertNewApiToken_calls (initial_newToken token) s) as [_ Hl].
  destruct (insertNewApiToken (initial_newToken token) s) as [[tok|err] s'];
    simpl in Hl; [|exact Hl].
  now rewrite IH.
Qed.

Lemma initApiTokens_loop_stops (bad : string) (err : Thrown)
  (pre rest : list string) s :
  seed_verdict bad = Throws err ->
  initApiTokens_loop (pre ++ bad :: rest) s
  = initApiTokens_loop (pre ++ [bad]) s /\
  exists e s', initApiTokens_loop (pre ++ [bad]) s = (Throws e, s').
Proof.
  intro Hbad. revert s. induction pre as [|token pre IH]; intro s.
  - simpl app. rewrite !initApiTokens_loop_cons, Hbad.
    split; [reflexivity | now exists err, s].
  - simpl app. rewrite !initApiTokens_loop_cons.
    destruct (seed_verdict token) as [[]|e0];
      [|split; [reflexivity | now exists e0, s]].
    destruct (insertNewApiToken (initial_newToken token) s)
      as [[tok|e1] s1]; [apply IH|].
    split; [reflexivity | now exists e1, s1].
Qed.

Lemma initApiTokens_eq (tokens : list string) s :
  initApiTokens tokens s
  = match Store.count (store s) with
    | (Throws e, st') => (Throws (FromStore e), after_call Store.Count st' s)
    | (Returns n, st') =>
        if negb (Z.eqb n 0) then (Returns tt, after_call Store.Count st' s)
        else
          match initApiTokens_loop tokens (after_call Store.Count st' s) with
          | (Returns _, s') => (Returns tt, s')
          | (Throws _, s') =>
              (Returns tt, with_logged (logged s' ++ [seed_failed_msg]) s')
          end
    end.
Proof.
  unfold initApiTokens, bind. rewrite await_store_eq.
  destruct (Store.count (store s)) as [[n|e] st']; simpl; [|reflexivity].
  destruct (negb (n =? 0)%Z); [reflexivity|].
  unfold try_catch.
  now destruct (initApiTokens_loop tokens _) as [[[]|err] s'].
Qed.

(** X7.  When the count call itself throws, the seeder throws that error on
    to its caller: it is not logged, no descriptor is looked at, nothing is
    inserted or cached. *)
Theorem initApiTokens_count_throws (tokens : list string) (e : StoreError)
  s st' :
  Store.count (store s) = (Throws e, st') ->
  initApiTokens tokens s
  = (Throws (FromStore e), after_call Store.Count st' s).
Proof.
  intro H. now rewrite initApiTokens_eq, H.
Qed.

(** X8.  The seeder stops at the first configured string whose record the
    validator rejects: the strings after it play no part in the run.  Against
    an empty store such a run returns normally and logs the failure once. *)
Theorem initApiTokens_stops_at_rejected (bad : string) (err : Thrown)
  (pre rest : list string) s :
  seed_verdict bad = Throws err ->
  initApiTokens (pre ++ bad :: rest) s = initApiTokens (pre ++ [bad]) s /\
  (forall st', Store.count (store s) = (Returns 0%Z, st') ->
     fst (initApiTokens (pre ++ bad :: rest) s) = Returns tt /\
     logged (snd (initApiTokens (pre ++ bad :: rest) s))
     = (logged s ++ [seed_failed_msg])%list).
Proof.
  intro Hbad. split.
  - rewrite !initApiTokens_eq.
    destruct (Store.count (store s)) as [[n|e] st']; [|reflexivity].
    destruct (negb (n =? 0)%Z); [reflexivity|].
    now rewrite (proj1 (initApiTokens_loop_stops bad err pre rest _ Hbad)).
  - intros st' Hcount. rewrite initApiTokens_eq, Hcount. simpl.
    destruct (initApiTokens_loop_stops bad err pre rest
                (after_call Store.Count st' s) Hbad) as [-> (e & s' & Hrun)].
    pose proof (initApiTokens_loop_logged (pre ++ [bad])
                  (after_call Store.Count st' s)) as Hl.
    rewrite Hrun in *. simpl in *. now rewrite Hl.
Qed.

(** X9.  A configured string without a colon gives a record whose project is
    the whole string and whose environment is missing; its secret ends in
    ":undefined.undefined".  The validator rejects every such record. *)
Theorem initial_newToken_without_colon (token : string) :
  Js.free_of ":" token = true ->
  project (initial_newToken token) = Js.str token /\
  environment (initial_newToken token) = Js.undefined /\
  secret (initial_newToken token) = token ++ ":undefined.undefined" /\
  exists msg, seed_verdict token = Throws (BadDataError msg).
Proof.
  intro H. unfold seed_verdict, initial_newToken.
  rewrite (split_free _ _ H). simpl.
  repeat (split; [reflexivity|]).
  unfold validateNewApiToken. rewrite strict_eq_refl. simpl.
  destruct (token =? ALL); simpl; eexists; reflexivity.
Qed.

(** X10.  A configured string with two parts and no suffix gives a record
    whose secret ends in ".undefined".  For "ALL:ALL" the validator accepts
    that record. *)
Theorem initial_newToken_without_suffix (p e : string) :
  Js.free_of ":" p = true ->
  Js.free_of ":" e = true ->
  initial_newToken (p ++ ":" ++ e)
  = {| secret := p ++ ":" ++ e ++ ".undefined";
       username := "admin";
       type := Js.str ApiTokenType_ADMIN;
       environment := Js.str e;
       project := Js.str p;
       expiresAt := None;
       createdAt := None |} /\
  (ApiTokenType_ADMIN <> ApiTokenType_CLIENT -> p = ALL -> e = ALL ->
   seed_verdict (p ++ ":" ++ e) = Returns tt).
Proof.
  intros Hp He.
  assert (Hrec : initial_newToken (p ++ ":" ++ e)
            = {| secret := p ++ ":" ++ e ++ ".undefined";
                 username := "admin";
                 type := Js.str ApiTokenType_ADMIN;
                 environment := Js.str e;
                 project := Js.str p;
                 expiresAt := None;
                 createdAt := None |}).
  { unfold initial_newToken.
    change (p ++ ":" ++ e) with (p ++ String ":" e).
    now rewrite (split_first _ _ _ Hp), (split_free _ _ He). }
  split; [exact Hrec|].
  intros Hd -> ->. unfold seed_verdict. rewrite Hrec. simpl.
  now apply validate_admin_all.
Qed.

(** X11.  Only the first three parts of a configured string are used: what
    follows a third colon changes nothing in the record built. *)
Theorem initial_newToken_extra_parts (p e suffix more : string) :
  Js.free_of ":" p = true ->
  Js.free_of ":" e = true ->
  Js.free_of ":" suffix = true ->
  initial_newToken (p ++ ":" ++ e ++ ":" ++ suffix ++ ":" ++ more)
  = initial_newToken (p ++ ":" ++ e ++ ":" ++ suffix).
Proof.
  intros Hp He Hs.
  rewrite (initial_newToken_parts _ _ _ Hp He Hs).
  unfold initial_newToken.
  change (p ++ ":" ++ e ++ ":" ++ suffix ++ ":" ++ more)
    with (p ++ String ":" (e ++ String ":" (suffix ++ String ":" more))).
  rewrite (split_first _ _ _ Hp), (split_first _ _ _ He),
    (split_first _ _ _ Hs).
  reflexivity.
Qed.

(** X14.  Against an empty store, a configured string the validator accepts
    and the store inserts is cached at once: the seeder returns with the
    stored record appended to the cache, after one count call and one insert
    call, and logs nothing. *)
Theorem initApiTokens_seeds_cache (token : string) (stored : IApiToken)
  s st1 st2 :
  Store.count (store s) = (Returns 0%Z, st1) ->
  seed_verdict token = Returns tt ->
  Store.insert (initial_newToken token) st1 = (Returns stored, st2) ->
  initApiTokens [token] s
  = (Returns tt,
     with_activeTokens (activeTokens s ++ [stored])
       (after_call (Store.Insert (initial_newToken token)) st2
          (after_call Store.Count st1 s))).
Proof.
  intros Hcount Hv Hins.
  rewrite initApiTokens_eq, Hcount.
  change (negb (0 =? 0)%Z) with false. cbv iota.
  rewrite initApiTokens_loop_cons, Hv.
  assert (Hins' : Store.insert (initial_newToken token)
                    (store (after_call Store.Count st1 s))
                  = (Returns stored, st2)) by exact Hins.
  now rewrite (insertNewApiToken_returns _ _ _ _ Hins').
Qed.

(** X15.  Against an empty store, when the insert of an accepted record
    throws, the seeder does not throw: it logs the failure once, leaves the
    cache as it was, and looks at no further configured string. *)
Theorem initApiTokens_insert_throws (token : string) (rest : list string)
  (e : StoreError) s st1 st2 :
  Store.count (store s) = (Returns 0%Z, st1) ->
  seed_verdict token = Returns tt ->
  Store.insert (initial_newToken token) st1 = (Throws e, st2) ->
  initApiTokens (token :: rest) s
  = (Returns tt,
     with_logged (logged s ++ [seed_failed_msg])
       (after_call (Store.Insert (initial_newToken token)) st2
          (after_call Store.Count st1 s))).
Proof.
  intros Hcount Hv Hins.
  rewrite initApiTokens_eq, Hcount.
  change (negb (0 =? 0)%Z) with false. cbv iota.
  rewrite initApiTokens_loop_cons, Hv.
  assert (Hins' : Store.insert (initial_newToken token)
                    (store (after_call Store.Count st1 s))
                  = (Throws e, st2)) by exact Hins.
  rewrite (insertNewApiToken_throws _ _ _ _ Hins').
  destruct (@insert_failed_throws imp St IApiToken (initial_newToken token)
              (FromStore e)
              (after_call (Store.Insert (initial_newToken token)) st2
                 (after_call Store.Count st1 s))) as [err ->].
  reflexivity.
Qed.

End SeedProperties.

(** ** Seeding an empty store *)

Section SeedEmptyStore.
Context {imp : Imported} {St : Type} {api : Store.IApiTokenStore St}.

Implicit Types (s : ApiTokenService St).





End SeedEmptyStore.

(** ** The parts of a configured string *)

Lemma split_parts_free (sep : ascii) (s : string) :
  Js.split sep s <> [] /\
  Forall (fun part => Js.free_of sep part = true) (Js.split sep s).
Proof.
  induction s as [|c s [Hne Hall]]; simpl.
  - split; [discriminate | repeat constructor].
  - destruct (Ascii.eqb c sep) eqn:Hc.
    + split; [discriminate|]. constructor; [reflexivity | exact Hall].
    + destruct (Js.split sep s) as [|hd tl]; [now elim Hne|].
      split; [discriminate|].
      inversion Hall; subst. constructor; [|assumption].
      simpl. now rewrite Hc.
Qed.

(** X16.  Whatever the configured string, the record built from it has a
    project that is a string without a colon, and an environment that is
    either missing or a string without a colon. *)
Theorem initial_newToken_scope_parts {imp : Imported} (token : string) :
  (exists p, project (initial_newToken token) = Js.str p /\
     Js.free_of ":" p = true) /\
  (environment (initial_newToken token) = Js.undefined \/
   exists e, environment (initial_newToken token) = Js.str e /\
     Js.free_of ":" e = true).
Proof.
  unfold initial_newToken. simpl.
  destruct (split_parts_free ":" token) as [Hne Hall].
  destruct (Js.split ":" token) as [|p [|e tl]]; [now elim Hne| |].
  - inversion Hall; subst. split; [now exists p | now left].
  - inversion Hall as [|? ? Hp Htl]; subst.
    inversion Htl; subst.
    split; [now exists p | right; now exists e].
Qed.

(** * The properties on concrete runs *)

Section Runs.
#[local] Existing Instance unleash_constants.
#[local] Existing Instance MemoryStore.api.

(** C1 at the project's constants: an ADMIN token for every project and the
    environment "development". *)
Lemma validateNewApiToken_contract_witness :
  validateNewApiToken (Js.str "admin") (Js.str "*") (Js.str "development")
  = Throws (BadDataError "Admin token cannot be scoped to single environment").
Proof.
  assert (Hd : "admin" <> "client") by discriminate.
  destruct (validateNewApiToken_contract (imp := unleash_constants)
              (Js.str "admin") (Js.str "*") (Js.str "development") Hd)
    as (_ & _ & _ & _ & Henv & _).
  apply Henv; [split; [reflexivity | discriminate] | reflexivity].
Defined.

(** C1 as first stated fails on an ADMIN token scoped to a project and to an
    environment: it violates the environment rule, and the message it is
    rejected with names "single project", not "single environment". *)
Lemma validateNewApiToken_both_admin_rules :
  admin_single_environment (Js.str "admin") (Js.str "development") /\
  validateNewApiToken (Js.str "admin") (Js.str "myproj")
    (Js.str "development")
  = Throws (BadDataError single_project_msg) /\
  Js.includes single_project_msg "single environment" = false.
Proof.
  split; [split; [reflexivity | discriminate]|].
  split; reflexivity.
Qed.




(** C4 on a project the store does not know. *)
Lemma createApiToken_insert_failure_witness :
  exists msg,
    fst (createApiToken unknown_project_descriptor fresh_service)
    = Throws (BadDataError msg) /\
    Js.includes msg "nope" = true.
Proof.
  destruct (createApiToken_insert_failure (imp := unleash_constants)
              (api := MemoryStore.api) unknown_project_descriptor
              (MemoryStore.foreign_key_violation "api_tokens_project_fkey")
              fresh_service MemoryStore.empty eq_refl eq_refl)
    as (Hproject & _ & _).
  exact (Hproject eq_refl eq_refl).
Defined.

(** C6 on a store that holds one token. *)
Lemma initApiTokens_seeded_store_witness :
  initApiTokens ["*:*:abc"] seeded_service
  = (Returns tt, after_call Store.Count seeded_store seeded_service) /\
  filter Store.is_insert
    (calls (snd (initApiTokens ["*:*:abc"]
                   (snd (initApiTokens ["*:*:abc"] seeded_service)))))
  = [].
Proof.
  assert (Hn : 1%Z <> 0%Z) by discriminate.
  destruct (initApiTokens_seeded_store (imp := unleash_constants)
              (api := MemoryStore.api) ["*:*:abc"] 1 seeded_service
              seeded_store eq_refl Hn) as (Hrun & _ & _ & Htwice).
  split; [exact Hrun|].
  destruct (Htwice ["*:*:abc"] 1%Z seeded_store eq_refl Hn)
    as (_ & Hins & _).
  rewrite Hins. reflexivity.
Defined.

(** C9 on a project the store does not know: the create throws and the cache
    stays empty. *)
Lemma failed_insert_keeps_cache_witness :
  activeTokens (snd (createApiToken unknown_project_descriptor fresh_service))
  = [].
Proof.
  destruct (@failed_insert_keeps_cache unleash_constants MemoryStore.t
              MemoryStore.api) as [_ Hcreate].
  destruct (Hcreate unknown_project_descriptor
              (MemoryStore.foreign_key_violation "api_tokens_project_fkey")
              fresh_service MemoryStore.empty eq_refl) as (_ & Hcache & _).
  exact Hcache.
Defined.

(** C10 on the type "frontend". *)
Lemma unknown_type_is_not_rejected_witness :
  validated frontend_descriptor = Returns tt /\
  calls (snd (createApiToken frontend_descriptor fresh_service))
  = [Store.Insert (record_in frontend_descriptor fresh_service)].
Proof.
  assert (Ha : new_type frontend_descriptor <> Js.str ApiTokenType_ADMIN)
    by discriminate.
  assert (Hc : new_type frontend_descriptor <> Js.str ApiTokenType_CLIENT)
    by discriminate.
  destruct (unknown_type_is_not_rejected (imp := unleash_constants)
              (api := MemoryStore.api) frontend_descriptor fresh_service
              Ha Hc) as (_ & Hv & Hcalls).
  split; [exact Hv | exact Hcalls].
Defined.

(** A descriptor with no type at all passes the validator too. *)
Example validateNewApiToken_missing_type :
  validateNewApiToken Js.undefined (Js.str "default") (Js.str "*")
  = Returns tt.
Proof. reflexivity. Qed.

(** A refresh against a store that cannot be reached returns and keeps the
    cached token; a lookup still finds it. *)
Example fetchActiveTokens_unreachable :
  fst (fetchActiveTokens stale_service) = Returns tt /\
  activeTokens (snd (fetchActiveTokens stale_service)) = [client_row "first"] /\
  getUserForToken zero_secret (snd (fetchActiveTokens stale_service))
  = Some (mkApiUser "first" ["CLIENT"] (Js.str "default")
            (Js.str "development") (Js.str "client")).
Proof. repeat split. Qed.

(** After a delete the store no longer lists the token, the lookup still
    returns it, and the next refresh removes it from the cache. *)
Example delete_then_lookup :
  fst (getAllTokens after_delete) = Returns [] /\
  getUserForToken zero_secret after_delete
  = Some (mkApiUser "first" ["CLIENT"] (Js.str "default")
            (Js.str "development") (Js.str "client")) /\
  getUserForToken zero_secret (snd (fetchActiveTokens after_delete)) = None.
Proof. repeat split. Qed.

(** The seeder on ["*:*:abc"] against the empty store: the record is
    inserted and cached. *)
Example initApiTokens_admin_seed :
  calls (snd (initApiTokens ["*:*:abc"] fresh_service))
  = [Store.Count; Store.Insert admin_row] /\
  map secret (activeTokens (snd (initApiTokens ["*:*:abc"] fresh_service)))
  = ["*:*.abc"] /\
  logged (snd (initApiTokens ["*:*:abc"] fresh_service)) = [].
Proof. repeat split. Qed.

(** A generated secret on the all-zero random source. *)
Example generateSecretKey_zero :
  fst (generateSecretKey (Js.str "default") (Js.str "development")
         fresh_service)
  = Returns zero_secret.
Proof. reflexivity. Qed.

End Runs.

(** * The further properties on concrete runs *)

Section MoreRuns.
#[local] Existing Instance unleash_constants.
#[local] Existing Instance MemoryStore.api.

(** X2 on the service with one cached token. *)
Lemma getUserForToken_first_match_witness :
  exists before token after,
    activeTokens stale_service = (before ++ token :: after)%list /\
    secret token = zero_secret /\
    username token = "first".
Proof.
  destruct (getUserForToken_first_match (imp := unleash_constants)
              zero_secret
              (mkApiUser "first" ["CLIENT"] (Js.str "default")
                 (Js.str "development") (Js.str "client"))
              stale_service eq_refl)
    as (before & token & after & Hl & _ & Hs & Hu & _).
  exists before, token, after. split; [exact Hl|].
  split; [exact Hs | now rewrite <- Hu].
Defined.

(** X4 on an ADMIN descriptor scoped to the project "myproj". *)
Lemma createApiToken_broken_rule_witness :
  exists msg,
    createApiToken admin_project_descriptor fresh_service
    = (Throws (BadDataError msg), fresh_service).
Proof.
  apply (createApiToken_broken_rule (imp := unleash_constants)
           (api := MemoryStore.api) admin_project_descriptor fresh_service).
  left. split; [reflexivity | discriminate].
Defined.

(** X6 on a store that reports a violation of an unknown constraint. *)
Lemma createApiToken_other_constraint_witness :
  fst (@createApiToken unleash_constants BrokenStore.t BrokenStore.api
         (client_descriptor "ci") broken_service)
  = Throws (BadDataError
              "insert or update on table violates foreign key constraint").
Proof.
  apply (createApiToken_other_constraint (imp := unleash_constants)
           (api := BrokenStore.api) (client_descriptor "ci")
           BrokenStore.owner_violation broken_service
           BrokenStore.owner_violation eq_refl eq_refl eq_refl);
    discriminate.
Defined.

(** X7 on a store that cannot be reached. *)
Lemma initApiTokens_count_throws_witness :
  initApiTokens ["*:*:abc"] stale_service
  = (Throws (FromStore MemoryStore.connection_refused),
     after_call Store.Count unreachable_store stale_service).
Proof.
  exact (initApiTokens_count_throws (imp := unleash_constants)
           (api := MemoryStore.api) ["*:*:abc"]
           MemoryStore.connection_refused stale_service unreachable_store
           eq_refl).
Defined.

(** X8 on a list whose second string is scoped to a project. *)
Lemma initApiTokens_stops_at_rejected_witness :
  initApiTokens ["*:*:abc"; "default:development:abc"; "*:*:def"]
    fresh_service
  = initApiTokens ["*:*:abc"; "default:development:abc"] fresh_service.
Proof.
  exact (proj1 (initApiTokens_stops_at_rejected (imp := unleash_constants)
                  (api := MemoryStore.api) "default:development:abc"
                  (BadDataError single_project_msg) ["*:*:abc"] ["*:*:def"]
                  fresh_service eq_refl)).
Defined.

(** X9 on the configured string "s3cret". *)
Lemma initial_newToken_without_colon_witness :
  secret (initial_newToken "s3cret") = "s3cret:undefined.undefined".
Proof.
  destruct (initial_newToken_without_colon (imp := unleash_constants)
              "s3cret" eq_refl) as (_ & _ & H & _).
  exact H.
Defined.

(** X10 on the configured string "*:*". *)
Lemma initial_newToken_without_suffix_witness :
  secret (initial_newToken "*:*") = "*:*.undefined" /\
  seed_verdict "*:*" = Returns tt.
Proof.
  destruct (initial_newToken_without_suffix (imp := unleash_constants)
              "*" "*" eq_refl eq_refl) as [Hrec Hv].
  split.
  - change (initial_newToken "*:*") with (initial_newToken ("*" ++ ":" ++ "*")).
    now rewrite Hrec.
  - apply Hv; [discriminate | reflexivity | reflexivity].
Defined.

(** X11 on the configured string "*:*:abc:def". *)
Lemma initial_newToken_extra_parts_witness :
  initial_newToken "*:*:abc:def" = initial_newToken "*:*:abc".
Proof.
  exact (initial_newToken_extra_parts (imp := unleash_constants)
           "*" "*" "abc" "def" eq_refl eq_refl eq_refl).
Defined.

(** X12 on two random sources that differ. *)
Lemma generateSecretKey_distinct_witness :
  fst (generateSecretKey (Js.str "default") (Js.str "development")
         fresh_service)
  <> fst (generateSecretKey (Js.str "default") (Js.str "development")
            (new_service MemoryStore.empty one_pool)).
Proof.
  apply (generateSecretKey_distinct (St := MemoryStore.t)
           (Js.str "default") (Js.str "development") fresh_service
           (new_service MemoryStore.empty one_pool)).
  intro H. vm_compute in H. discriminate.
Defined.

(** X13 on the service of the deleted token: the refresh drops it. *)
Lemma fetchActiveTokens_replaces_cache_witness :
  getUserForToken zero_secret (snd (fetchActiveTokens after_delete)) = None.
Proof.
  destruct (fetchActiveTokens_replaces_cache (imp := unleash_constants)
              (api := MemoryStore.api) [] after_delete (store after_delete)
              eq_refl) as (_ & Hnone & _).
  apply Hnone. constructor.
Defined.

(** X14 on the configured string "*:*:abc", against the empty store. *)
Lemma initApiTokens_seeds_cache_witness :
  activeTokens (snd (initApiTokens ["*:*:abc"] fresh_service))
  = [mkToken "*:*.abc" "admin" (Js.str "admin") (Js.str "*") (Js.str "*")
       None (Some 1000%Z)].
Proof.
  rewrite (initApiTokens_seeds_cache (imp := unleash_constants)
             (api := MemoryStore.api) "*:*:abc"
             (mkToken "*:*.abc" "admin" (Js.str "admin") (Js.str "*")
                (Js.str "*") None (Some 1000%Z))
             fresh_service MemoryStore.empty
             (MemoryStore.with_rows
                [mkToken "*:*.abc" "admin" (Js.str "admin") (Js.str "*")
                   (Js.str "*") None (Some 1000%Z)] MemoryStore.empty)
             eq_refl eq_refl eq_refl).
  reflexivity.
Defined.

(** X15 on a store whose insert fails. *)
Lemma initApiTokens_insert_throws_witness :
  logged (snd (@initApiTokens unleash_constants BrokenStore.t BrokenStore.api
                 ["*:*:abc"; "*:*:def"] broken_service))
  = ["Unable to create initial Admin API tokens"].
Proof.
  rewrite (initApiTokens_insert_throws (imp := unleash_constants)
             (api := BrokenStore.api) "*:*:abc" ["*:*:def"]
             BrokenStore.owner_violation broken_service
             BrokenStore.owner_violation BrokenStore.owner_violation
             eq_refl eq_refl eq_refl).
  reflexivity.
Defined.

End MoreRuns.
